(** * Shallow embedding of the WolkAbout Python connector ([src/iot.py])

    The class [Wolk] is split into its immutable configuration (what
    [__init__] stores and never reassigns: the device, the optional
    callbacks, the queue size, the keep-alive flag and the collaborators)
    and its mutable part ([message_queue], [keep_alive_service],
    [last_platform_timestamp]).  Collaborators that are not in [src/]
    (message factory, deserializer, message queue, MQTT connectivity
    service) are modelled at the interface the connector uses.  Python
    exceptions are the [Raised] outcome of a small state/exception monad;
    the [while True] loop of [publish] is run with fuel, and running out
    of fuel is the [OutOfFuel] outcome. *)

From Stdlib Require Import List String ZArith Bool Lia Arith.
Import ListNotations.
Open Scope string_scope.
Open Scope list_scope.

(** ** Values and messages *)

(** Values a sensor reading, actuator or configuration can carry
    ([bool, int, float, str or tuple]); the model keeps the scalar kinds
    the connector forwards without inspecting. *)
Inductive Value :=
| VBool (b : bool)
| VInt (z : Z)
| VStr (s : string).

(** [ACTUATOR_STATE_READY], [ACTUATOR_STATE_BUSY], [ACTUATOR_STATE_ERROR]. *)
Inductive ActuatorState := READY | BUSY | ERROR.

(** A configuration is a key -> value mapping. *)
Definition Config := list (string * Value).

(** Modelled from the spec: the outbound codec
    ([WolkAboutProtocolMessageFactory], not in [src/]).  An encoded message
    is identified by what it encodes, one constructor per factory method. *)
Inductive Message :=
| MsgSensorReading (reference : string) (value : Value) (timestamp : option Z)
| MsgAlarm (reference : string) (active : bool) (timestamp : option Z)
| MsgActuatorStatus (reference : string) (state : ActuatorState) (value : Value)
| MsgConfiguration (configuration : Config)
| MsgKeepAlive.

(** An inbound MQTT message as handed to [_on_inbound_message]. *)
Record InboundMessage := { in_topic : string; in_payload : string }.

(** Parsed actuation command ([actuation.reference], [actuation.value]). *)
Record ActuatorCommand := { cmd_reference : string; cmd_value : Value }.

(** Modelled from the spec: the inbound codec
    ([WolkAboutProtocolMessageDeserializer], not in [src/]): three
    predicates and their parsers, left arbitrary. *)
Record Deserializer := {
  is_actuation_command : InboundMessage -> bool;
  parse_actuator_command : InboundMessage -> ActuatorCommand;
  is_configuration_command : InboundMessage -> bool;
  parse_configuration_command : InboundMessage -> Config;
  is_keep_alive_response : InboundMessage -> bool;
  parse_keep_alive_response : InboundMessage -> Z
}.

(** ** The outbound queue *)

(** Modelled from the spec: [ZerynthMessageQueue] (not in [src/]), a
    bounded FIFO.  [put] appends when the length is below the capacity and
    reports whether it did; [peek] returns the oldest message; [get]
    removes it. *)
Module Queue.
Definition put (capacity : nat) (q : list Message) (m : Message)
  : list Message * bool :=
  if Nat.ltb (List.length q) capacity then (app q [m], true) else (q, false).

Definition peek (q : list Message) : option Message :=
  match q with [] => None | m :: _ => Some m end.

Definition get (q : list Message) : option Message * list Message :=
  match q with [] => (None, []) | m :: r => (Some m, r) end.
End Queue.

(** ** The connector *)

(** [Device(key, password, actuator_references=None)]. *)
Record Device := {
  key : string;
  password : string;
  actuator_references : option (list string)
}.

(** Python truthiness of [device.actuator_references]: [None] and [[]]
    are false. *)
Definition truthy_refs (r : option (list string)) : bool :=
  match r with None => false | Some [] => false | Some (_ :: _) => true end.

(** [x is None]. *)
Definition is_None {A} (o : option A) : bool :=
  match o with None => true | Some _ => false end.

(** The device-side state the user callbacks read and write. *)
Definition DeviceState := list (string * Value).

(** What [__init__] stores and nothing later reassigns.  A callback is
    [None] or a function over the device state; [transport k] is the
    boolean that the connectivity service's [publish] returns on its
    [k]-th call (counting from 0). *)
Record Wolk := {
  device : Device;
  actuation_handler : option (DeviceState -> string -> Value -> DeviceState);
  actuator_status_provider : option (DeviceState -> string -> ActuatorState * Value);
  configuration_handler : option (DeviceState -> Config -> DeviceState);
  configuration_provider : option (DeviceState -> Config);
  message_queue_size : nat;
  keep_alive_enabled : bool;
  message_deserializer : Deserializer;
  transport : nat -> bool
}.

(** Observable interactions with collaborators, newest first. *)
Inductive Event :=
| EvConnect
| EvDisconnect
| EvPublish (m : Message) (ok : bool)
| EvActuationHandler (reference : string) (value : Value)
| EvStatusProvider (reference : string)
| EvConfigurationHandler (configuration : Config)
| EvConfigurationProvider.

(** The mutable part of a [Wolk] object, plus the collaborators' state:
    how many transport publishes were made, the device state and the
    event trace.  [keep_alive_service] is [None] until [connect] creates
    the timer, then [Some running]. *)
Record State := {
  message_queue : list Message;
  keep_alive_service : option bool;
  last_platform_timestamp : option Z;
  publish_calls : nat;
  device_state : DeviceState;
  trace : list Event
}.

Inductive Exn := InterfaceNotProvided | TypeError | AttributeError.

Inductive Outcome (A : Type) :=
| Ok (a : A) (s : State)
| Raised (e : Exn) (s : State)
| OutOfFuel.
Arguments Ok {A}.
Arguments Raised {A}.
Arguments OutOfFuel {A}.

(** A state and exception monad. *)
Definition M (A : Type) := State -> Outcome A.

Definition ret {A} (a : A) : M A := fun s => Ok a s.
Definition bind {A B} (c : M A) (k : A -> M B) : M B :=
  fun s => match c s with
           | Ok a s' => k a s'
           | Raised e s' => Raised e s'
           | OutOfFuel => OutOfFuel
           end.
Definition raise {A} (e : Exn) : M A := fun s => Raised e s.
Definition out_of_fuel {A} : M A := fun _ => OutOfFuel.
Definition gets {A} (f : State -> A) : M A := fun s => Ok (f s) s.
Definition modify (f : State -> State) : M unit := fun s => Ok tt (f s).

Notation "x <- c ;; k" := (bind c (fun x => k))
  (at level 61, c at next level, right associativity).
Notation "c ;; k" := (bind c (fun _ : unit => k))
  (at level 61, right associativity).

Definition set_queue (q : list Message) (s : State) : State :=
  {| message_queue := q; keep_alive_service := keep_alive_service s;
     last_platform_timestamp := last_platform_timestamp s;
     publish_calls := publish_calls s; device_state := device_state s;
     trace := trace s |}.
Definition set_keep_alive_service (k : option bool) (s : State) : State :=
  {| message_queue := message_queue s; keep_alive_service := k;
     last_platform_timestamp := last_platform_timestamp s;
     publish_calls := publish_calls s; device_state := device_state s;
     trace := trace s |}.
Definition set_last_platform_timestamp (t : option Z) (s : State) : State :=
  {| message_queue := message_queue s; keep_alive_service := keep_alive_service s;
     last_platform_timestamp := t;
     publish_calls := publish_calls s; device_state := device_state s;
     trace := trace s |}.
Definition set_device_state (d : DeviceState) (s : State) : State :=
  {| message_queue := message_queue s; keep_alive_service := keep_alive_service s;
     last_platform_timestamp := last_platform_timestamp s;
     publish_calls := publish_calls s; device_state := d;
     trace := trace s |}.
Definition log (e : Event) (s : State) : State :=
  {| message_queue := message_queue s; keep_alive_service := keep_alive_service s;
     last_platform_timestamp := last_platform_timestamp s;
     publish_calls := publish_calls s; device_state := device_state s;
     trace := e :: trace s |}.

(** The public operations of a constructed [Wolk], plus the two entry
    points driven by collaborators: the keep-alive timer's callback
    [_send_keep_alive] and the inbound listener [_on_inbound_message]. *)
Inductive Op :=
| OpConnect
| OpDisconnect
| OpSendKeepAlive
| OpAddSensorReading (reference : string) (value : Value) (timestamp : option Z)
| OpAddAlarm (reference : string) (active : bool) (timestamp : option Z)
| OpPublish
| OpPublishActuatorStatus (reference : string)
| OpPublishConfiguration
| OpRequestTimestamp
| OpInbound (m : InboundMessage).

(** The freshly constructed object: empty queue, no timer, no platform
    timestamp. *)
Definition initial_state (d0 : DeviceState) : State :=
  {| message_queue := []; keep_alive_service := None;
     last_platform_timestamp := None; publish_calls := 0;
     device_state := d0; trace := [] |}.

(** The collaborators' side of one transport publish call. *)
Definition record_publish (m : Message) (ok : bool) (s : State) : State :=
  {| message_queue := message_queue s;
     keep_alive_service := keep_alive_service s;
     last_platform_timestamp := last_platform_timestamp s;
     publish_calls := S (publish_calls s);
     device_state := device_state s;
     trace := EvPublish m ok :: trace s |}.

Section Connector.
Variable w : Wolk.

(** [self.connectivity_service.publish(message)]: one transport call. *)
Definition transport_publish (m : Message) : M bool :=
  fun s => let ok := transport w (publish_calls s) in
           Ok ok (record_publish m ok s).

(** [self.message_queue.put(message)]. *)
Definition queue_put (m : Message) : M bool :=
  fun s => let (q, ok) := Queue.put (message_queue_size w) (message_queue s) m in
           Ok ok (set_queue q s).

Definition queue_peek : M (option Message) :=
  gets (fun s => Queue.peek (message_queue s)).

Definition queue_get : M (option Message) :=
  fun s => let (m, q) := Queue.get (message_queue s) in Ok m (set_queue q s).

(** [Wolk.publish]: the [while True] loop, one iteration per unit of fuel.
<<
        while True:
            message = self.message_queue.peek()
            if message is None:
                break
            if self.connectivity_service.publish(message) is True:
                self.message_queue.get()
>> *)
Fixpoint publish (fuel : nat) : M unit :=
  match fuel with
  | O => out_of_fuel
  | S fuel' =>
      message <- queue_peek ;;
      match message with
      | None => ret tt
      | Some m =>
          ok <- transport_publish m ;;
          (if ok then _ <- queue_get ;; ret tt else ret tt) ;;
          publish fuel'
      end
  end.

(** [Wolk.__init__]: raises [InterfaceNotProvided] when the device has
    actuator references and a handler or the status provider is [None]. *)
Definition wolk_init (d0 : DeviceState) : Exn + State :=
  if truthy_refs (actuator_references (device w))
     && (is_None (actuation_handler w) || is_None (actuator_status_provider w))
  then inl InterfaceNotProvided
  else inr (initial_state d0).

(** [Wolk.connect]. *)
Definition connect : M unit :=
  modify (log EvConnect) ;;
  if keep_alive_enabled w
  then modify (set_keep_alive_service (Some true))
  else ret tt.

(** [Wolk.disconnect]: [self.keep_alive_service.stop()] on [None] raises
    [AttributeError]. *)
Definition disconnect : M unit :=
  modify (log EvDisconnect) ;;
  if keep_alive_enabled w
  then (kas <- gets keep_alive_service ;;
        match kas with
        | None => raise AttributeError
        | Some _ => modify (set_keep_alive_service (Some false))
        end)
  else ret tt.

(** [Wolk._send_keep_alive]. *)
Definition send_keep_alive : M unit :=
  _ <- transport_publish MsgKeepAlive ;; ret tt.

(** [Wolk.add_sensor_reading]. *)
Definition add_sensor_reading (reference : string) (value : Value)
  (timestamp : option Z) : M unit :=
  _ <- queue_put (MsgSensorReading reference value timestamp) ;; ret tt.

(** [Wolk.add_alarm]. *)
Definition add_alarm (reference : string) (active : bool)
  (timestamp : option Z) : M unit :=
  _ <- queue_put (MsgAlarm reference active timestamp) ;; ret tt.

(** Calling the user callbacks: each call is logged and reads or writes
    the device state. *)
Definition call_status_provider
  (p : DeviceState -> string -> ActuatorState * Value) (reference : string)
  : M (ActuatorState * Value) :=
  fun s => Ok (p (device_state s) reference) (log (EvStatusProvider reference) s).

Definition call_actuation_handler
  (h : DeviceState -> string -> Value -> DeviceState)
  (reference : string) (value : Value) : M unit :=
  fun s => Ok tt (log (EvActuationHandler reference value)
                      (set_device_state (h (device_state s) reference value) s)).

Definition call_configuration_handler
  (h : DeviceState -> Config -> DeviceState) (configuration : Config) : M unit :=
  fun s => Ok tt (log (EvConfigurationHandler configuration)
                      (set_device_state (h (device_state s) configuration) s)).

(** [self.configuration_provider()]: calling [None] raises [TypeError]. *)
Definition call_configuration_provider : M Config :=
  match configuration_provider w with
  | None => raise TypeError
  | Some p => fun s => Ok (p (device_state s)) (log EvConfigurationProvider s)
  end.

(** [Wolk.publish_actuator_status]. *)
Definition publish_actuator_status (reference : string) : M unit :=
  match actuator_status_provider w with
  | None => ret tt
  | Some provider =>
      sv <- call_status_provider provider reference ;;
      let message := MsgActuatorStatus reference (fst sv) (snd sv) in
      ok <- transport_publish message ;;
      if negb ok then (_ <- queue_put message ;; ret tt) else ret tt
  end.

(** [Wolk.publish_configuration]: the guard tests the handler only. *)
Definition publish_configuration : M unit :=
  match configuration_handler w with
  | None => ret tt
  | Some _ =>
      configuration <- call_configuration_provider ;;
      let message := MsgConfiguration configuration in
      ok <- transport_publish message ;;
      if negb ok then (_ <- queue_put message ;; ret tt) else ret tt
  end.

(** [Wolk.request_timestamp]. *)
Definition request_timestamp : M (option Z) := gets last_platform_timestamp.

(** [Wolk._on_inbound_message]. *)
Definition on_inbound_message (message : InboundMessage) : M unit :=
  let d := message_deserializer w in
  if is_actuation_command d message then
    match actuation_handler w, actuator_status_provider w with
    | Some handler, Some _ =>
        let actuation := parse_actuator_command d message in
        call_actuation_handler handler (cmd_reference actuation)
          (cmd_value actuation) ;;
        publish_actuator_status (cmd_reference actuation)
    | _, _ => ret tt
    end
  else if is_configuration_command d message then
    match configuration_provider w, configuration_handler w with
    | Some _, Some handler =>
        let configuration := parse_configuration_command d message in
        call_configuration_handler handler configuration ;;
        publish_configuration
    | _, _ => ret tt
    end
  else if is_keep_alive_response d message then
    modify (set_last_platform_timestamp
              (Some (parse_keep_alive_response d message)))
  else ret tt.

(** One operation; [fuel] bounds the iterations of [publish]. *)
Definition run_op (fuel : nat) (op : Op) : M unit :=
  match op with
  | OpConnect => connect
  | OpDisconnect => disconnect
  | OpSendKeepAlive => send_keep_alive
  | OpAddSensorReading r v t => add_sensor_reading r v t
  | OpAddAlarm r a t => add_alarm r a t
  | OpPublish => publish fuel
  | OpPublishActuatorStatus r => publish_actuator_status r
  | OpPublishConfiguration => publish_configuration
  | OpRequestTimestamp => _ <- request_timestamp ;; ret tt
  | OpInbound m => on_inbound_message m
  end.

Fixpoint run_ops (fuel : nat) (ops : list Op) : M unit :=
  match ops with
  | [] => ret tt
  | op :: rest => run_op fuel op ;; run_ops fuel rest
  end.

End Connector.

(** The four classifications of an inbound message, in the order
    [_on_inbound_message] tests them. *)
Inductive Classification :=
| ActuationCommand | ConfigurationCommand | KeepAliveResponse | Unknown.

Definition classify (d : Deserializer) (m : InboundMessage) : Classification :=
  if is_actuation_command d m then ActuationCommand
  else if is_configuration_command d m then ConfigurationCommand
  else if is_keep_alive_response d m then KeepAliveResponse
  else Unknown.

(** The message reaches the keep-alive branch of [_on_inbound_message]. *)
Definition keep_alive_branch (d : Deserializer) (m : InboundMessage) : bool :=
  negb (is_actuation_command d m) && negb (is_configuration_command d m)
  && is_keep_alive_response d m.

(** The timestamp after [op], given the one before. *)
Definition recorded_timestamp (w : Wolk) (op : Op) (prev : option Z) : option Z :=
  match op with
  | OpInbound m =>
      if keep_alive_branch (message_deserializer w) m
      then Some (parse_keep_alive_response (message_deserializer w) m)
      else prev
  | _ => prev
  end.

(** ** Auxiliary notions of the proofs *)

(** Number of successful outcomes among the calls [k], ..., [k + n - 1]. *)
Fixpoint successes (t : nat -> bool) (k n : nat) : nat :=
  match n with
  | O => O
  | S n' => (if t k then 1 else 0) + successes t (S k) n'
  end.

(** The history of one drain, newest event first: [drained l log rest]
    says that starting from queue [l] the transport calls [log] leave the
    queue [rest].  A failed call leaves the queue as it is; a successful
    one removes its head. *)
Inductive drained (l : list Message) : list Event -> list Message -> Prop :=
| drained_start : drained l [] l
| drained_fail : forall log m r,
    drained l log (m :: r) -> drained l (EvPublish m false :: log) (m :: r)
| drained_success : forall log m r,
    drained l log (m :: r) -> drained l (EvPublish m true :: log) r.

(** [c] leaves the timestamp as it found it, whether it returns or
    raises. *)
Definition keeps_ts {A} (c : M A) : Prop :=
  forall s, match c s with
            | Ok _ s' | Raised _ s' =>
                last_platform_timestamp s' = last_platform_timestamp s
            | OutOfFuel => True
            end.

(** [c] keeps the state invariant [I], whether it returns or raises. *)
Definition preserves (I : State -> Prop) {A} (c : M A) : Prop :=
  forall s, I s -> match c s with
                   | Ok _ s' | Raised _ s' => I s'
                   | OutOfFuel => True
                   end.

(** A run of operations ends, normally or by an exception, in [s']. *)
Definition ends_in (o : Outcome unit) (s' : State) : Prop :=
  o = Ok tt s' \/ exists e, o = Raised e s'.

(** [SensorReading(reference, value, timestamp)] of
    [src/wolk/model/sensor_reading.py]. *)
Record SensorReading := {
  reading_reference : string;
  reading_value : Value;
  reading_timestamp : option Z
}.

(** [add_sensor_reading] for each reading in turn, and the messages they
    encode to. *)
Definition reading_ops (rs : list SensorReading) : list Op :=
  map (fun r => OpAddSensorReading (reading_reference r) (reading_value r)
                  (reading_timestamp r)) rs.
Definition reading_msgs (rs : list SensorReading) : list Message :=
  map (fun r => MsgSensorReading (reading_reference r) (reading_value r)
                  (reading_timestamp r)) rs.

(** ** Concrete instances used by the examples, witnesses and
    counterexamples *)

Definition ex_deserializer : Deserializer := {|
  is_actuation_command := fun m => String.eqb (in_topic m) "actuators/commands/a";
  parse_actuator_command := fun m =>
    {| cmd_reference := "a"; cmd_value := VStr (in_payload m) |};
  is_configuration_command := fun m => String.eqb (in_topic m) "configurations/commands";
  parse_configuration_command := fun m => [("rate", VStr (in_payload m))];
  is_keep_alive_response := fun m => String.eqb (in_topic m) "pong";
  parse_keep_alive_response := fun _ => 1000%Z
|}.

Definition ex_device (refs : option (list string)) : Device :=
  {| key := "device_key"; password := "some_password";
     actuator_references := refs |}.

(** The actuator "a" stores its value in the device state. *)
Definition ex_actuation_handler (d : DeviceState) (r : string) (v : Value)
  : DeviceState := (r, v) :: d.
Definition ex_status_provider (d : DeviceState) (r : string)
  : ActuatorState * Value :=
  match find (fun p => String.eqb (fst p) r) d with
  | Some (_, v) => (READY, v)
  | None => (ERROR, VBool false)
  end.
Definition ex_configuration_handler (d : DeviceState) (c : Config)
  : DeviceState := c ++ d.
Definition ex_configuration_provider (d : DeviceState) : Config := d.

(** A connector with every callback registered, capacity [cap],
    keep-alive flag [ka] and transport outcomes [t]. *)
Definition ex_wolk (cap : nat) (ka : bool) (t : nat -> bool) : Wolk := {|
  device := ex_device (Some ["a"]);
  actuation_handler := Some ex_actuation_handler;
  actuator_status_provider := Some ex_status_provider;
  configuration_handler := Some ex_configuration_handler;
  configuration_provider := Some ex_configuration_provider;
  message_queue_size := cap;
  keep_alive_enabled := ka;
  message_deserializer := ex_deserializer;
  transport := t
|}.

Definition ex_state (q : list Message) : State :=
  set_queue q (initial_state []).

Definition msg_a := MsgSensorReading "T1" (VInt 23) (Some 1000%Z).
Definition msg_b := MsgAlarm "HIGH" true None.
Definition msg_c := MsgSensorReading "T1" (VInt 24) None.

(** A connector whose device declares actuators but that was given no
    actuation handler, and one with a configuration handler but no
    configuration provider. *)
Definition ex_wolk_without_handler : Wolk := {|
  device := ex_device (Some ["a"]);
  actuation_handler := None;
  actuator_status_provider := Some ex_status_provider;
  configuration_handler := None;
  configuration_provider := None;
  message_queue_size := 100;
  keep_alive_enabled := true;
  message_deserializer := ex_deserializer;
  transport := fun _ => true
|}.

Definition ex_wolk_without_provider : Wolk := {|
  device := ex_device None;
  actuation_handler := None;
  actuator_status_provider := None;
  configuration_handler := Some ex_configuration_handler;
  configuration_provider := None;
  message_queue_size := 100;
  keep_alive_enabled := true;
  message_deserializer := ex_deserializer;
  transport := fun _ => true
|}.

(** Inbound messages. *)
Definition actuate_a_on : InboundMessage :=
  {| in_topic := "actuators/commands/a"; in_payload := "on" |}.
Definition pong : InboundMessage := {| in_topic := "pong"; in_payload := "" |}.

(** Three queued messages; the second transport call fails. *)
Definition three_queued := ex_state [msg_a; msg_b; msg_c].
Definition second_call_fails := ex_wolk 100 true (fun k => negb (Nat.eqb k 1)).
Definition second_call_fails_final : State :=
  match publish second_call_fails 5 three_queued with
  | Ok _ s => s
  | _ => three_queued
  end.

Definition all_calls_succeed := ex_wolk 100 true (fun _ => true).
Definition all_delivered : State :=
  {| message_queue := []; keep_alive_service := None;
     last_platform_timestamp := None; publish_calls := 3; device_state := [];
     trace := [EvPublish msg_c true; EvPublish msg_b true; EvPublish msg_a true] |}.

Definition actuated_a : State :=
  {| message_queue := []; keep_alive_service := None;
     last_platform_timestamp := None; publish_calls := 1;
     device_state := [("a", VStr "on")];
     trace := [EvPublish (MsgActuatorStatus "a" READY (VStr "on")) true;
               EvStatusProvider "a"; EvActuationHandler "a" (VStr "on")] |}.

Definition a_is_on : State := set_device_state [("a", VStr "on")] (initial_state []).
Definition all_calls_fail := ex_wolk 100 true (fun _ => false).
Definition a_status_queued : State :=
  {| message_queue := [MsgActuatorStatus "a" READY (VStr "on")];
     keep_alive_service := None; last_platform_timestamp := None;
     publish_calls := 1; device_state := [("a", VStr "on")];
     trace := [EvPublish (MsgActuatorStatus "a" READY (VStr "on")) false;
               EvStatusProvider "a"] |}.

Definition ping_ops : list Op :=
  [OpConnect; OpSendKeepAlive; OpAddSensorReading "T1" (VInt 23) None;
   OpInbound pong; OpPublish; OpRequestTimestamp].
Definition after_ping_ops : State :=
  match run_ops all_calls_succeed 3 ping_ops (initial_state []) with
  | Ok _ s => s
  | _ => initial_state []
  end.

Definition keep_alive_disabled := ex_wolk 100 false (fun _ => true).

(** Capacity 2, every transport call fails: three alarms, a keep-alive
    probe and an actuator status. *)
Definition cap2_all_fail := ex_wolk 2 true (fun _ => false).
Definition alarms_and_probe : list Op :=
  [OpAddAlarm "A1" true None; OpAddAlarm "A2" false None;
   OpAddAlarm "A3" true None; OpSendKeepAlive; OpPublishActuatorStatus "a"].
Definition after_alarms_and_probe : State :=
  match run_ops cap2_all_fail 1 alarms_and_probe (initial_state []) with
  | Ok _ s => s
  | _ => initial_state []
  end.

Definition timer_ops : list Op :=
  [OpConnect; OpSendKeepAlive; OpInbound pong; OpDisconnect; OpConnect].
Definition after_timer_ops : State :=
  match run_ops keep_alive_disabled 1 timer_ops (initial_state []) with
  | Ok _ s => s
  | _ => initial_state []
  end.

Definition configure_fast : InboundMessage :=
  {| in_topic := "configurations/commands"; in_payload := "fast" |}.
Definition configured_fast : State :=
  {| message_queue := []; keep_alive_service := None;
     last_platform_timestamp := None; publish_calls := 1;
     device_state := [("rate", VStr "fast")];
     trace := [EvPublish (MsgConfiguration [("rate", VStr "fast")]) true;
               EvConfigurationProvider;
               EvConfigurationHandler [("rate", VStr "fast")]] |}.

Definition two_readings : list SensorReading :=
  [{| reading_reference := "T1"; reading_value := VInt 23;
      reading_timestamp := Some 1000%Z |};
   {| reading_reference := "H1"; reading_value := VInt 40;
      reading_timestamp := None |}].

Example publish_all_ok :
  match publish (ex_wolk 100 true (fun _ => true)) 4 (ex_state [msg_a; msg_b; msg_c]) with
  | Ok _ s => message_queue s = [] /\
              trace s = [EvPublish msg_c true; EvPublish msg_b true; EvPublish msg_a true]
  | _ => False
  end.
Proof. vm_compute. split; reflexivity. Qed.

Example publish_second_call_fails :
  match publish (ex_wolk 100 true (fun k => negb (Nat.eqb k 1))) 5
          (ex_state [msg_a; msg_b; msg_c]) with
  | Ok _ s => message_queue s = [] /\
              trace s = [EvPublish msg_c true; EvPublish msg_b true;
                         EvPublish msg_b false; EvPublish msg_a true]
  | _ => False
  end.
Proof. vm_compute. split; reflexivity. Qed.

(** ** The drain loop [publish] *)

(** One iteration of the [while True] loop. *)
Lemma publish_S (w : Wolk) (f : nat) (s : State) :
  publish w (S f) s =
  match message_queue s with
  | [] => Ok tt s
  | m :: r =>
      if transport w (publish_calls s)
      then publish w f (set_queue r (record_publish m true s))
      else publish w f (record_publish m false s)
  end.
Proof.
  destruct s as [q kas ts c d tr]; simpl.
  destruct q as [|m r]; [reflexivity|].
  unfold bind, queue_peek, gets, transport_publish, queue_get; simpl.
  destruct (transport w c); reflexivity.
Qed.

(** A drain that returns has emptied the queue. *)
Lemma publish_empties (w : Wolk) (f : nat) (s s' : State) (u : unit) :
  publish w f s = Ok u s' -> message_queue s' = [].
Proof.
  revert s; induction f as [|f IH]; intros s H; [discriminate|].
  rewrite publish_S in H.
  destruct (message_queue s) as [|m r] eqn:Hq.
  - injection H as _ <-; exact Hq.
  - destruct (transport w (publish_calls s)); eapply IH; exact H.
Qed.

Lemma successes_never (k n : nat) : successes (fun _ => false) k n = 0.
Proof. revert k; induction n as [|n IH]; intros k; simpl; auto. Qed.

(** A drain that returns met at least one success per queued message. *)
Lemma publish_ok_needs_successes (w : Wolk) (f : nat) (s s' : State) :
  publish w f s = Ok tt s' ->
  exists n, List.length (message_queue s)
            <= successes (transport w) (publish_calls s) n.
Proof.
  revert s; induction f as [|f IH]; intros s H; [discriminate|].
  rewrite publish_S in H.
  destruct (message_queue s) as [|m r] eqn:Hq.
  - exists 0; simpl; lia.
  - destruct (transport w (publish_calls s)) eqn:Ht.
    + destruct (IH _ H) as [n Hn]; simpl in Hn.
      exists (S n); simpl; rewrite Ht; simpl; lia.
    + destruct (IH _ H) as [n Hn]; simpl in Hn; rewrite Hq in Hn; simpl in Hn.
      exists (S n); simpl; rewrite Ht; simpl; lia.
Qed.

(** Enough successes make the drain return. *)
Lemma successes_suffice_for_publish (w : Wolk) (n : nat) (s : State) :
  List.length (message_queue s) <= successes (transport w) (publish_calls s) n ->
  exists fuel s', publish w fuel s = Ok tt s'.
Proof.
  revert s; induction n as [|n IH]; intros s H; simpl in H.
  - destruct (message_queue s) eqn:Hq; simpl in H; [|lia].
    exists 1, s; rewrite publish_S, Hq; reflexivity.
  - destruct (message_queue s) as [|m r] eqn:Hq.
    + exists 1, s; rewrite publish_S, Hq; reflexivity.
    + destruct (transport w (publish_calls s)) eqn:Ht; simpl in H.
      * destruct (IH (set_queue r (record_publish m true s))) as [f [s' Hf]];
          [simpl; lia|].
        exists (S f), s'; rewrite publish_S, Hq, Ht; exact Hf.
      * destruct (IH (record_publish m false s)) as [f [s' Hf]];
          [simpl; rewrite Hq; simpl; lia|].
        exists (S f), s'; rewrite publish_S, Hq, Ht; exact Hf.
Qed.

Lemma publish_drained (w : Wolk) (f : nat) (l : list Message) (log : list Event)
  (s s' : State) :
  drained l log (message_queue s) -> publish w f s = Ok tt s' ->
  exists new, trace s' = new ++ trace s /\ drained l (new ++ log) [].
Proof.
  revert s log; induction f as [|f IH]; intros s log Hd H; [discriminate|].
  rewrite publish_S in H.
  destruct (message_queue s) as [|m r] eqn:Hq.
  - injection H as <-; exists []; split; [reflexivity|exact Hd].
  - destruct (transport w (publish_calls s)).
    + destruct (IH (set_queue r (record_publish m true s))
                  (EvPublish m true :: log)) as [new [Ht Hn]];
        [simpl; constructor; exact Hd|exact H|].
      exists (new ++ [EvPublish m true]); simpl in Ht.
      rewrite <- !app_assoc; split; assumption.
    + destruct (IH (record_publish m false s)
                  (EvPublish m false :: log)) as [new [Ht Hn]];
        [simpl; rewrite Hq; constructor; exact Hd|exact H|].
      exists (new ++ [EvPublish m false]); simpl in Ht.
      rewrite <- !app_assoc; split; assumption.
Qed.

(** ** Claims about the drain loop *)

(** C1 (amended): a failed publish call does not end the drain.  The
    failed message stays at the head of the queue, which still holds the
    messages from that position onward in their original order, and the
    next iteration publishes that same message again; a drain that returns
    has emptied the queue, and its transport calls are the queued messages
    in order, each failed zero or more times before its one success. *)
Theorem publish_retries_failed_head (w : Wolk) (fuel : nat) (s s' : State)
  (Hrun : publish w fuel s = Ok tt s') :
  (forall f t m r, message_queue t = m :: r ->
     transport w (publish_calls t) = false ->
     publish w (S f) t = publish w f (record_publish m false t) /\
     message_queue (record_publish m false t) = m :: r) /\
  message_queue s' = [] /\
  exists new, trace s' = new ++ trace s /\ drained (message_queue s) new [].
Proof.
  split; [|split].
  - intros f t m r Hq Ht; rewrite publish_S, Hq, Ht; split; [reflexivity|exact Hq].
  - exact (publish_empties w fuel s s' tt Hrun).
  - destruct (publish_drained w fuel (message_queue s) [] s s') as [new [Ht Hd]];
      [constructor|exact Hrun|].
    exists new; rewrite app_nil_r in Hd; split; assumption.
Qed.

(** C2 (amended): [publish] returns if and only if, counting from its
    first transport call, the transport eventually reports at least as
    many successes as there are queued messages; with a non-empty queue
    and a transport that always fails it never returns. *)
Theorem publish_terminates_iff (w : Wolk) (s : State) :
  (exists fuel s', publish w fuel s = Ok tt s') <->
  exists n, List.length (message_queue s)
            <= successes (transport w) (publish_calls s) n.
Proof.
  split.
  - intros [fuel [s' H]]; exact (publish_ok_needs_successes w fuel s s' H).
  - intros [n H]; exact (successes_suffice_for_publish w n s H).
Qed.

(** C3: when every transport call succeeds, [publish] returns with an
    empty queue after exactly one call per queued message, made in queue
    order; nothing else changes. *)
Theorem publish_all_success_delivers_in_order (w : Wolk) (fuel : nat) (s : State)
  (Hok : forall k, transport w k = true)
  (Hfuel : List.length (message_queue s) < fuel) :
  publish w fuel s =
  Ok tt {| message_queue := [];
           keep_alive_service := keep_alive_service s;
           last_platform_timestamp := last_platform_timestamp s;
           publish_calls := publish_calls s + List.length (message_queue s);
           device_state := device_state s;
           trace := rev (map (fun m => EvPublish m true) (message_queue s))
                    ++ trace s |}.
Proof.
  destruct s as [q kas ts c d tr]; simpl in *.
  revert fuel c tr Hfuel; induction q as [|m r IH]; intros fuel c tr Hfuel;
    destruct fuel as [|f]; simpl in Hfuel; try lia.
  - rewrite publish_S; simpl; rewrite Nat.add_0_r; reflexivity.
  - rewrite publish_S; simpl; rewrite Hok; unfold set_queue, record_publish; simpl.
    rewrite IH by lia.
    rewrite <- app_assoc; simpl.
    repeat f_equal; lia.
Qed.

(** ** Claims about construction, dispatch and the side-effect publishers *)

(** C4: the classification is the first of actuation, configuration and
    keep-alive whose predicate holds, [Unknown] when none does; each
    message goes through the branch of its classification only, and an
    unknown message leaves the state (queue, transport calls, callbacks'
    trace, timestamp) untouched and raises nothing. *)
Theorem on_inbound_message_first_match (w : Wolk) (m : InboundMessage) (s : State) :
  let d := message_deserializer w in
  (classify d m = ActuationCommand <-> is_actuation_command d m = true) /\
  (classify d m = ConfigurationCommand <->
     is_actuation_command d m = false /\ is_configuration_command d m = true) /\
  (classify d m = KeepAliveResponse <->
     is_actuation_command d m = false /\ is_configuration_command d m = false /\
     is_keep_alive_response d m = true) /\
  (classify d m = Unknown <->
     is_actuation_command d m = false /\ is_configuration_command d m = false /\
     is_keep_alive_response d m = false) /\
  on_inbound_message w m s =
  match classify d m with
  | ActuationCommand =>
      match actuation_handler w, actuator_status_provider w with
      | Some h, Some _ =>
          let a := parse_actuator_command d m in
          (call_actuation_handler h (cmd_reference a) (cmd_value a) ;;
           publish_actuator_status w (cmd_reference a)) s
      | _, _ => Ok tt s
      end
  | ConfigurationCommand =>
      match configuration_provider w, configuration_handler w with
      | Some _, Some h =>
          (call_configuration_handler h (parse_configuration_command d m) ;;
           publish_configuration w) s
      | _, _ => Ok tt s
      end
  | KeepAliveResponse =>
      Ok tt (set_last_platform_timestamp
               (Some (parse_keep_alive_response d m)) s)
  | Unknown => Ok tt s
  end.
Proof.
  intros d; unfold on_inbound_message, classify; fold d.
  destruct (is_actuation_command d m), (is_configuration_command d m),
    (is_keep_alive_response d m);
    repeat split; intros; try discriminate; try tauto;
    repeat match goal with H : _ /\ _ |- _ => destruct H end; try discriminate;
    try reflexivity;
    try (destruct (actuation_handler w), (actuator_status_provider w); reflexivity);
    try (destruct (configuration_provider w), (configuration_handler w); reflexivity).
Qed.

(** C5: an actuation command with both the handler and the status
    provider registered calls the handler once with the parsed reference
    and value, then queries the provider once and makes exactly one
    transport publish of that actuator's status, queuing it only if that
    publish fails; with either collaborator missing nothing happens. *)
Theorem actuation_command_handled_once (w : Wolk) (m : InboundMessage) (s : State)
  (Hact : is_actuation_command (message_deserializer w) m = true) :
  (forall h p, actuation_handler w = Some h -> actuator_status_provider w = Some p ->
     let a := parse_actuator_command (message_deserializer w) m in
     let r := cmd_reference a in
     let d' := h (device_state s) r (cmd_value a) in
     let msg := MsgActuatorStatus r (fst (p d' r)) (snd (p d' r)) in
     let ok := transport w (publish_calls s) in
     on_inbound_message w m s =
     Ok tt {| message_queue :=
                if ok then message_queue s
                else fst (Queue.put (message_queue_size w) (message_queue s) msg);
              keep_alive_service := keep_alive_service s;
              last_platform_timestamp := last_platform_timestamp s;
              publish_calls := S (publish_calls s);
              device_state := d';
              trace := EvPublish msg ok :: EvStatusProvider r
                       :: EvActuationHandler r (cmd_value a) :: trace s |}) /\
  (actuation_handler w = None \/ actuator_status_provider w = None ->
   on_inbound_message w m s = Ok tt s).
Proof.
  split.
  - intros h p Hh Hp; simpl.
    unfold on_inbound_message; rewrite Hact, Hh, Hp.
    unfold publish_actuator_status; rewrite Hp.
    unfold bind, call_actuation_handler, call_status_provider,
      transport_publish, queue_put, ret; simpl.
    destruct (transport w (publish_calls s)); simpl; [reflexivity|].
    destruct (Queue.put _ _ _); reflexivity.
  - intros [H | H]; unfold on_inbound_message; rewrite Hact, H;
      [reflexivity|destruct (actuation_handler w); reflexivity].
Qed.

(** C6: a device with a non-empty list of actuator references can only
    be wrapped when both the actuation handler and the actuator status
    provider are given; otherwise [__init__] raises. *)
Theorem init_requires_actuation_interfaces (w : Wolk) (d0 : DeviceState)
  (refs : list string)
  (Hrefs : actuator_references (device w) = Some refs) (Hne : refs <> []) :
  ((actuation_handler w = None \/ actuator_status_provider w = None) ->
   wolk_init w d0 = inl InterfaceNotProvided) /\
  (forall h p, actuation_handler w = Some h -> actuator_status_provider w = Some p ->
   wolk_init w d0 = inr (initial_state d0)).
Proof.
  unfold wolk_init; rewrite Hrefs.
  destruct refs as [|r rs]; [congruence|]; simpl.
  split.
  - intros [H | H]; rewrite H; simpl; [reflexivity|].
    rewrite orb_true_r; reflexivity.
  - intros h p Hh Hp; rewrite Hh, Hp; reflexivity.
Qed.

(** C8: with their collaborators registered, [publish_actuator_status]
    and [publish_configuration] make exactly one transport publish of the
    encoded message; on success the queue is unchanged, on failure the
    message is handed to the queue's [put]. *)
Theorem side_effect_publishers_fall_back_on_failure (w : Wolk) :
  (forall p r s, actuator_status_provider w = Some p ->
     let msg := MsgActuatorStatus r (fst (p (device_state s) r))
                  (snd (p (device_state s) r)) in
     let ok := transport w (publish_calls s) in
     publish_actuator_status w r s =
     Ok tt {| message_queue :=
                if ok then message_queue s
                else fst (Queue.put (message_queue_size w) (message_queue s) msg);
              keep_alive_service := keep_alive_service s;
              last_platform_timestamp := last_platform_timestamp s;
              publish_calls := S (publish_calls s);
              device_state := device_state s;
              trace := EvPublish msg ok :: EvStatusProvider r :: trace s |}) /\
  (forall h p s, configuration_handler w = Some h -> configuration_provider w = Some p ->
     let msg := MsgConfiguration (p (device_state s)) in
     let ok := transport w (publish_calls s) in
     publish_configuration w s =
     Ok tt {| message_queue :=
                if ok then message_queue s
                else fst (Queue.put (message_queue_size w) (message_queue s) msg);
              keep_alive_service := keep_alive_service s;
              last_platform_timestamp := last_platform_timestamp s;
              publish_calls := S (publish_calls s);
              device_state := device_state s;
              trace := EvPublish msg ok :: EvConfigurationProvider :: trace s |}).
Proof.
  split.
  - intros p r s Hp; simpl.
    unfold publish_actuator_status; rewrite Hp.
    unfold bind, call_status_provider, transport_publish, queue_put, ret; simpl.
    destruct (transport w (publish_calls s)); simpl; [reflexivity|].
    destruct (Queue.put _ _ _); reflexivity.
  - intros h p s Hh Hp; simpl.
    unfold publish_configuration, call_configuration_provider; rewrite Hh, Hp.
    unfold bind, transport_publish, queue_put, ret; simpl.
    destruct (transport w (publish_calls s)); simpl; [reflexivity|].
    destruct (Queue.put _ _ _); reflexivity.
Qed.

(** C10: [publish_configuration] returns without effect exactly when
    [configuration_handler] is [None]; with a handler it always calls
    [configuration_provider], which raises [TypeError] when the provider
    is [None] and otherwise leads to a transport publish of the
    provider's configuration. *)
Theorem publish_configuration_guard_tests_handler_only (w : Wolk) (s : State) :
  (publish_configuration w s = Ok tt s <-> configuration_handler w = None) /\
  (forall h, configuration_handler w = Some h -> configuration_provider w = None ->
   publish_configuration w s = Raised TypeError s) /\
  (forall h p, configuration_handler w = Some h -> configuration_provider w = Some p ->
   exists s', publish_configuration w s = Ok tt s' /\
     exists ok, trace s' = EvPublish (MsgConfiguration (p (device_state s))) ok
                           :: EvConfigurationProvider :: trace s).
Proof.
  unfold publish_configuration, call_configuration_provider.
  destruct (configuration_handler w) as [h|] eqn:Hh.
  - destruct (configuration_provider w) as [p|] eqn:Hp.
    + unfold bind, transport_publish, queue_put, ret; simpl.
      split; [|split].
      * split; [|discriminate]; intros H.
        destruct (transport w (publish_calls s)); simpl in H;
          [|destruct (Queue.put _ _ _); simpl in H];
          injection H as H; apply (f_equal publish_calls) in H; simpl in H; lia.
      * intros _ _ Hn; discriminate.
      * intros h' p' _ Hp'; injection Hp' as <-.
        destruct (transport w (publish_calls s)); simpl;
          [|destruct (Queue.put _ _ _)]; eexists; split;
          try reflexivity; eexists; reflexivity.
    + split; [|split].
      * split; [discriminate|discriminate].
      * intros; reflexivity.
      * intros _ p' _ Hp'; discriminate.
  - split; [|split].
    + split; reflexivity.
    + intros h' Hn; discriminate.
    + intros h' p' Hn; discriminate.
Qed.

(** ** Who writes [last_platform_timestamp] *)

Lemma keeps_ts_ret {A} (a : A) : keeps_ts (ret a).
Proof. intros s; reflexivity. Qed.

Lemma keeps_ts_raise {A} (e : Exn) : keeps_ts (@raise A e).
Proof. intros s; reflexivity. Qed.

Lemma keeps_ts_out_of_fuel {A} : keeps_ts (@out_of_fuel A).
Proof. intros s; exact I. Qed.

Lemma keeps_ts_gets {A} (f : State -> A) : keeps_ts (gets f).
Proof. intros s; reflexivity. Qed.

Lemma keeps_ts_bind {A B} (c : M A) (k : A -> M B) :
  keeps_ts c -> (forall a, keeps_ts (k a)) -> keeps_ts (bind c k).
Proof.
  intros Hc Hk s; unfold bind; specialize (Hc s).
  destruct (c s) as [a s1|e s1|]; auto.
  specialize (Hk a s1); destruct (k a s1); congruence.
Qed.

Lemma keeps_ts_if {A} (b : bool) (c1 c2 : M A) :
  keeps_ts c1 -> keeps_ts c2 -> keeps_ts (if b then c1 else c2).
Proof. destruct b; auto. Qed.

Lemma keeps_ts_modify_log (e : Event) : keeps_ts (modify (log e)).
Proof. intros s; reflexivity. Qed.

Lemma keeps_ts_modify_kas (k : option bool) :
  keeps_ts (modify (set_keep_alive_service k)).
Proof. intros s; reflexivity. Qed.

Lemma keeps_ts_transport_publish (w : Wolk) (m : Message) :
  keeps_ts (transport_publish w m).
Proof. intros s; reflexivity. Qed.

Lemma keeps_ts_queue_put (w : Wolk) (m : Message) : keeps_ts (queue_put w m).
Proof. intros s; unfold queue_put; destruct (Queue.put _ _ _); reflexivity. Qed.

Lemma keeps_ts_queue_peek : keeps_ts queue_peek.
Proof. intros s; reflexivity. Qed.

Lemma keeps_ts_queue_get : keeps_ts queue_get.
Proof. intros s; unfold queue_get; destruct (Queue.get _); reflexivity. Qed.

Lemma keeps_ts_call_status_provider p r : keeps_ts (call_status_provider p r).
Proof. intros s; reflexivity. Qed.

Lemma keeps_ts_call_actuation_handler h r v :
  keeps_ts (call_actuation_handler h r v).
Proof. intros s; reflexivity. Qed.

Lemma keeps_ts_call_configuration_handler h c :
  keeps_ts (call_configuration_handler h c).
Proof. intros s; reflexivity. Qed.

Lemma keeps_ts_call_configuration_provider (w : Wolk) :
  keeps_ts (call_configuration_provider w).
Proof.
  intros s; unfold call_configuration_provider.
  destruct (configuration_provider w); reflexivity.
Qed.

Create HintDb keeps_ts.
#[local] Hint Resolve keeps_ts_ret keeps_ts_raise keeps_ts_out_of_fuel
  keeps_ts_gets keeps_ts_modify_log keeps_ts_modify_kas
  keeps_ts_transport_publish keeps_ts_queue_put keeps_ts_queue_peek
  keeps_ts_queue_get keeps_ts_call_status_provider
  keeps_ts_call_actuation_handler keeps_ts_call_configuration_handler
  keeps_ts_call_configuration_provider : keeps_ts.

Ltac keeps :=
  repeat first
    [ progress eauto with keeps_ts
    | apply keeps_ts_bind; [|intros ?]
    | apply keeps_ts_if
    | match goal with
      | |- keeps_ts (match ?x with _ => _ end) => destruct x
      end ].

Lemma keeps_ts_publish (w : Wolk) (fuel : nat) : keeps_ts (publish w fuel).
Proof. induction fuel as [|f IH]; simpl; keeps. Qed.

Lemma keeps_ts_publish_actuator_status (w : Wolk) (r : string) :
  keeps_ts (publish_actuator_status w r).
Proof. unfold publish_actuator_status; keeps. Qed.

Lemma keeps_ts_publish_configuration (w : Wolk) :
  keeps_ts (publish_configuration w).
Proof. unfold publish_configuration; keeps. Qed.

#[local] Hint Resolve keeps_ts_publish keeps_ts_publish_actuator_status
  keeps_ts_publish_configuration : keeps_ts.

(** Every operation but an inbound keep-alive response keeps the
    timestamp; that one sets it to the parsed value. *)
Lemma run_op_timestamp (w : Wolk) (fuel : nat) (op : Op) (s : State) :
  match run_op w fuel op s with
  | Ok _ s' | Raised _ s' =>
      last_platform_timestamp s' =
      recorded_timestamp w op (last_platform_timestamp s)
  | OutOfFuel => True
  end.
Proof.
  destruct op as [| | |r v t|r a t| |r| | |m];
    try (lazymatch goal with
         | |- context [run_op w fuel ?o s] =>
             assert (H : keeps_ts (run_op w fuel o))
               by (unfold run_op, connect, disconnect, send_keep_alive,
                     add_sensor_reading, add_alarm; keeps);
             exact (H s)
         end).
  simpl.
  unfold on_inbound_message, keep_alive_branch.
  destruct (is_actuation_command _ m) eqn:Ha; simpl.
  - assert (H : keeps_ts (match actuation_handler w, actuator_status_provider w with
      | Some handler, Some _ =>
          let actuation := parse_actuator_command (message_deserializer w) m in
          call_actuation_handler handler (cmd_reference actuation) (cmd_value actuation) ;;
          publish_actuator_status w (cmd_reference actuation)
      | _, _ => ret tt end)) by keeps.
    exact (H s).
  - destruct (is_configuration_command _ m) eqn:Hc; simpl.
    + assert (H : keeps_ts (match configuration_provider w, configuration_handler w with
        | Some _, Some handler =>
            call_configuration_handler handler
              (parse_configuration_command (message_deserializer w) m) ;;
            publish_configuration w
        | _, _ => ret tt end)) by keeps.
      exact (H s).
    + destruct (is_keep_alive_response _ m); reflexivity.
Qed.

(** C7: the platform timestamp is [None] after construction; an
    operation changes it only when it is an inbound message reaching the
    keep-alive branch of the dispatcher, which overwrites it with the
    parsed timestamp (whatever it held before); so after a run of
    operations it holds the value of the last such message, [None] if
    there was none; and [request_timestamp] returns it unchanged. *)
Theorem last_platform_timestamp_lifecycle (w : Wolk) :
  (forall d0 s, wolk_init w d0 = inr s -> last_platform_timestamp s = None) /\
  (forall fuel op s s',
     (run_op w fuel op s = Ok tt s' \/ exists e, run_op w fuel op s = Raised e s') ->
     last_platform_timestamp s' =
     recorded_timestamp w op (last_platform_timestamp s)) /\
  (forall fuel ops d0 s0 s', wolk_init w d0 = inr s0 ->
     run_ops w fuel ops s0 = Ok tt s' ->
     last_platform_timestamp s' =
     fold_left (fun t op => recorded_timestamp w op t) ops None) /\
  (forall s, request_timestamp s = Ok (last_platform_timestamp s) s).
Proof.
  assert (Hinit : forall d0 s, wolk_init w d0 = inr s ->
                  last_platform_timestamp s = None).
  { intros d0 s H; unfold wolk_init in H.
    destruct (_ && _); [discriminate|]; injection H as <-; reflexivity. }
  split; [exact Hinit|split; [|split]].
  - intros fuel op s s' H; pose proof (run_op_timestamp w fuel op s) as Hts.
    destruct H as [H | [e H]]; rewrite H in Hts; exact Hts.
  - intros fuel ops d0 s0 s' Hi; rewrite <- (Hinit d0 s0 Hi); clear Hi.
    revert s0; induction ops as [|op rest IH]; intros s0 H; simpl in H.
    + injection H as <-; reflexivity.
    + unfold bind in H; pose proof (run_op_timestamp w fuel op s0) as Hts.
      destruct (run_op w fuel op s0) as [[] s1|e s1|]; try discriminate.
      simpl; rewrite <- Hts; exact (IH s1 H).
  - intros s; reflexivity.
Qed.

(** C9 (the code does not do what [request_timestamp]'s docstring says):
    with keep-alive disabled, an inbound keep-alive response still sets
    the timestamp, and [request_timestamp] then returns it. *)
Theorem keep_alive_disabled_timestamp_set_by_inbound :
  keep_alive_enabled keep_alive_disabled = false /\
  wolk_init keep_alive_disabled [] = inr (initial_state []) /\
  exists s', run_ops keep_alive_disabled 1 [OpInbound pong] (initial_state []) = Ok tt s' /\
             request_timestamp s' = Ok (Some 1000%Z) s'.
Proof.
  split; [reflexivity|split; [reflexivity|]].
  eexists; split; vm_compute; reflexivity.
Qed.

(** ** Witnesses and counterexamples *)

Lemma publish_retries_failed_head_witness :
  publish second_call_fails 5 three_queued = Ok tt second_call_fails_final /\
  message_queue second_call_fails_final = [] /\
  exists new, trace second_call_fails_final = new ++ trace three_queued /\
              drained (message_queue three_queued) new [].
Proof.
  assert (H : publish second_call_fails 5 three_queued = Ok tt second_call_fails_final)
    by (vm_compute; reflexivity).
  split; [exact H|].
  exact (proj2 (publish_retries_failed_head second_call_fails 5 three_queued
                  second_call_fails_final H)).
Defined.

(** C1 fails: the second transport call fails, yet the drain goes on,
    publishes [msg_b] again and then [msg_c]; no run of [publish] returns
    with [[msg_b; msg_c]] left in the queue. *)
Lemma publish_second_failure_does_not_stop :
  publish second_call_fails 5 three_queued = Ok tt second_call_fails_final /\
  trace second_call_fails_final =
    [EvPublish msg_c true; EvPublish msg_b true; EvPublish msg_b false;
     EvPublish msg_a true] /\
  ~ (exists fuel s', publish second_call_fails fuel three_queued = Ok tt s' /\
                     message_queue s' = [msg_b; msg_c]).
Proof.
  split; [vm_compute; reflexivity|split; [vm_compute; reflexivity|]].
  intros [fuel [s' [H Hq]]].
  rewrite (publish_empties _ _ _ _ _ H) in Hq; discriminate.
Qed.

(** C2 fails: with a transport that always fails and one queued message,
    no amount of iterations makes [publish] return. *)
Lemma publish_never_returns_on_failing_transport :
  ~ (exists fuel s', publish all_calls_fail fuel (ex_state [msg_a]) = Ok tt s').
Proof.
  intros [fuel [s' H]].
  destruct (publish_ok_needs_successes _ _ _ _ H) as [n Hn].
  change (transport all_calls_fail) with (fun _ : nat => false) in Hn.
  rewrite successes_never in Hn; simpl in Hn; lia.
Qed.

Lemma publish_all_success_delivers_in_order_witness :
  (forall k, transport all_calls_succeed k = true) /\
  List.length (message_queue three_queued) < 4 /\
  publish all_calls_succeed 4 three_queued = Ok tt all_delivered.
Proof.
  assert (Hok : forall k, transport all_calls_succeed k = true) by reflexivity.
  assert (Hf : List.length (message_queue three_queued) < 4) by (simpl; lia).
  split; [exact Hok|split; [exact Hf|]].
  exact (publish_all_success_delivers_in_order all_calls_succeed 4 three_queued Hok Hf).
Defined.

Lemma actuation_command_handled_once_witness :
  is_actuation_command (message_deserializer all_calls_succeed) actuate_a_on = true /\
  on_inbound_message all_calls_succeed actuate_a_on (initial_state []) = Ok tt actuated_a.
Proof.
  assert (H : is_actuation_command (message_deserializer all_calls_succeed)
                actuate_a_on = true) by reflexivity.
  split; [exact H|].
  exact (proj1 (actuation_command_handled_once all_calls_succeed actuate_a_on
                  (initial_state []) H) ex_actuation_handler ex_status_provider
                  eq_refl eq_refl).
Defined.

Lemma init_requires_actuation_interfaces_witness :
  actuator_references (device ex_wolk_without_handler) = Some ["a"] /\
  ["a"] <> [] /\
  wolk_init ex_wolk_without_handler [] = inl InterfaceNotProvided /\
  wolk_init all_calls_succeed [] = inr (initial_state []).
Proof.
  assert (Hr : actuator_references (device ex_wolk_without_handler) = Some ["a"])
    by reflexivity.
  assert (Hr' : actuator_references (device all_calls_succeed) = Some ["a"])
    by reflexivity.
  assert (Hne : ["a"] <> []) by discriminate.
  split; [exact Hr|split; [exact Hne|split]].
  - exact (proj1 (init_requires_actuation_interfaces ex_wolk_without_handler []
                    ["a"] Hr Hne) (or_introl eq_refl)).
  - exact (proj2 (init_requires_actuation_interfaces all_calls_succeed []
                    ["a"] Hr' Hne) ex_actuation_handler ex_status_provider
                    eq_refl eq_refl).
Defined.

Lemma last_platform_timestamp_lifecycle_witness :
  wolk_init all_calls_succeed [] = inr (initial_state []) /\
  run_ops all_calls_succeed 3 ping_ops (initial_state []) = Ok tt after_ping_ops /\
  last_platform_timestamp after_ping_ops = Some 1000%Z.
Proof.
  assert (Hi : wolk_init all_calls_succeed [] = inr (initial_state [])) by reflexivity.
  assert (Hr : run_ops all_calls_succeed 3 ping_ops (initial_state []) = Ok tt after_ping_ops)
    by (vm_compute; reflexivity).
  split; [exact Hi|split; [exact Hr|]].
  exact (proj1 (proj2 (proj2 (last_platform_timestamp_lifecycle all_calls_succeed)))
           3 ping_ops [] (initial_state []) after_ping_ops Hi Hr).
Defined.

Lemma side_effect_publishers_fall_back_on_failure_witness :
  actuator_status_provider all_calls_fail = Some ex_status_provider /\
  publish_actuator_status all_calls_fail "a" a_is_on = Ok tt a_status_queued.
Proof.
  assert (Hp : actuator_status_provider all_calls_fail = Some ex_status_provider)
    by reflexivity.
  split; [exact Hp|].
  exact (proj1 (side_effect_publishers_fall_back_on_failure all_calls_fail)
           ex_status_provider "a" a_is_on Hp).
Defined.

Lemma publish_configuration_guard_tests_handler_only_witness :
  configuration_handler ex_wolk_without_provider = Some ex_configuration_handler /\
  configuration_provider ex_wolk_without_provider = None /\
  publish_configuration ex_wolk_without_provider (initial_state []) =
    Raised TypeError (initial_state []).
Proof.
  assert (Hh : configuration_handler ex_wolk_without_provider
               = Some ex_configuration_handler) by reflexivity.
  assert (Hp : configuration_provider ex_wolk_without_provider = None) by reflexivity.
  split; [exact Hh|split; [exact Hp|]].
  exact (proj1 (proj2 (publish_configuration_guard_tests_handler_only
                         ex_wolk_without_provider (initial_state [])))
           ex_configuration_handler Hh Hp).
Defined.

(** ** State invariants kept by every operation *)

Section Preservation.
Variable w : Wolk.
Variable Inv : State -> Prop.

(** What each state update of the connector must keep. *)
Hypothesis Inv_log : forall e s, Inv s -> Inv (log e s).
Hypothesis Inv_ts : forall t s, Inv s -> Inv (set_last_platform_timestamp t s).
Hypothesis Inv_dev : forall d s, Inv s -> Inv (set_device_state d s).
Hypothesis Inv_pub : forall m ok s, Inv s -> Inv (record_publish m ok s).
Hypothesis Inv_put : forall m s, m <> MsgKeepAlive -> Inv s ->
  Inv (set_queue (fst (Queue.put (message_queue_size w) (message_queue s) m)) s).
Hypothesis Inv_get : forall s, Inv s -> Inv (set_queue (snd (Queue.get (message_queue s))) s).
Hypothesis Inv_kas : forall b s, keep_alive_enabled w = true -> Inv s ->
  Inv (set_keep_alive_service (Some b) s).

Lemma preserves_ret {A} (a : A) : preserves Inv (ret a).
Proof. intros s H; exact H. Qed.

Lemma preserves_raise {A} (e : Exn) : preserves Inv (@raise A e).
Proof. intros s H; exact H. Qed.

Lemma preserves_out_of_fuel {A} : preserves Inv (@out_of_fuel A).
Proof. intros s _; exact I. Qed.

Lemma preserves_gets {A} (f : State -> A) : preserves Inv (gets f).
Proof. intros s H; exact H. Qed.

Lemma preserves_bind {A B} (c : M A) (k : A -> M B) :
  preserves Inv c -> (forall a, preserves Inv (k a)) -> preserves Inv (bind c k).
Proof.
  intros Hc Hk s H; unfold bind; specialize (Hc s H).
  destruct (c s) as [a s1|e s1|]; auto; exact (Hk a s1 Hc).
Qed.

Lemma preserves_modify_log (e : Event) : preserves Inv (modify (log e)).
Proof. intros s H; exact (Inv_log e s H). Qed.

Lemma preserves_modify_ts (t : option Z) :
  preserves Inv (modify (set_last_platform_timestamp t)).
Proof. intros s H; exact (Inv_ts t s H). Qed.

Lemma preserves_transport_publish (m : Message) : preserves Inv (transport_publish w m).
Proof. intros s H; exact (Inv_pub m _ s H). Qed.

Lemma preserves_queue_put (m : Message) :
  m <> MsgKeepAlive -> preserves Inv (queue_put w m).
Proof.
  intros Hm s H; unfold queue_put; pose proof (Inv_put m s Hm H) as Hp.
  destruct (Queue.put _ _ _); exact Hp.
Qed.

Lemma preserves_queue_peek : preserves Inv queue_peek.
Proof. intros s H; exact H. Qed.

Lemma preserves_queue_get : preserves Inv queue_get.
Proof.
  intros s H; unfold queue_get; pose proof (Inv_get s H) as Hg.
  destruct (Queue.get _); exact Hg.
Qed.

Lemma preserves_call_status_provider p r : preserves Inv (call_status_provider p r).
Proof. intros s H; apply Inv_log; exact H. Qed.

Lemma preserves_call_actuation_handler h r v :
  preserves Inv (call_actuation_handler h r v).
Proof. intros s H; apply Inv_log, Inv_dev; exact H. Qed.

Lemma preserves_call_configuration_handler h c :
  preserves Inv (call_configuration_handler h c).
Proof. intros s H; apply Inv_log, Inv_dev; exact H. Qed.

Lemma preserves_call_configuration_provider :
  preserves Inv (call_configuration_provider w).
Proof.
  intros s H; unfold call_configuration_provider.
  destruct (configuration_provider w); [apply Inv_log|]; exact H.
Qed.

Ltac preserve :=
  repeat first
    [ apply preserves_ret | apply preserves_raise | apply preserves_out_of_fuel
    | apply preserves_gets | apply preserves_modify_log | apply preserves_modify_ts
    | apply preserves_transport_publish | apply preserves_queue_peek
    | apply preserves_queue_get | apply preserves_call_status_provider
    | apply preserves_call_actuation_handler
    | apply preserves_call_configuration_handler
    | apply preserves_call_configuration_provider
    | apply preserves_queue_put; discriminate
    | apply preserves_bind; [|intros ?]
    | match goal with
      | |- preserves _ (if ?b then _ else _) => destruct b eqn:?
      | |- preserves _ (match ?x with _ => _ end) => destruct x
      end ].

Lemma preserves_publish (fuel : nat) : preserves Inv (publish w fuel).
Proof. induction fuel as [|f IH]; simpl; preserve; exact IH. Qed.

Lemma preserves_publish_actuator_status (r : string) :
  preserves Inv (publish_actuator_status w r).
Proof. unfold publish_actuator_status; preserve. Qed.

Lemma preserves_publish_configuration : preserves Inv (publish_configuration w).
Proof. unfold publish_configuration; preserve. Qed.

Lemma preserves_connect : preserves Inv (connect w).
Proof.
  unfold connect; preserve.
  intros s H; exact (Inv_kas true s ltac:(first [reflexivity | assumption]) H).
Qed.

Lemma preserves_disconnect : preserves Inv (disconnect w).
Proof.
  unfold disconnect; preserve.
  intros s H; exact (Inv_kas false s ltac:(first [reflexivity | assumption]) H).
Qed.

Lemma preserves_on_inbound_message (m : InboundMessage) :
  preserves Inv (on_inbound_message w m).
Proof.
  unfold on_inbound_message; preserve;
    first [apply preserves_publish_actuator_status
          | apply preserves_publish_configuration].
Qed.

Lemma preserves_run_ops (fuel : nat) (ops : list Op) : preserves Inv (run_ops w fuel ops).
Proof.
  induction ops as [|op rest IH]; simpl; [apply preserves_ret|].
  apply preserves_bind; [|intros _; exact IH].
  destruct op; simpl;
    first [ apply preserves_connect | apply preserves_disconnect
          | apply preserves_publish | apply preserves_publish_actuator_status
          | apply preserves_publish_configuration
          | apply preserves_on_inbound_message
          | unfold send_keep_alive, add_sensor_reading, add_alarm; preserve ].
Qed.

End Preservation.

(** ** Further properties of the connector *)

Lemma preserves_ends_in (Inv : State -> Prop) (c : M unit) (s s' : State) :
  preserves Inv c -> Inv s -> ends_in (c s) s' -> Inv s'.
Proof.
  intros Hp Hs [H | [e H]]; specialize (Hp s Hs); rewrite H in Hp; exact Hp.
Qed.

Lemma wolk_init_state (w : Wolk) (d0 : DeviceState) (s0 : State) :
  wolk_init w d0 = inr s0 -> s0 = initial_state d0.
Proof.
  unfold wolk_init; destruct (_ && _); [discriminate|]; now injection 1.
Qed.

(** X1: whatever operations run after construction, the queue never
    holds more than [message_queue_size] messages. *)
Theorem queue_within_capacity (w : Wolk) (fuel : nat) (ops : list Op)
  (d0 : DeviceState) (s0 s' : State)
  (Hinit : wolk_init w d0 = inr s0)
  (Hrun : ends_in (run_ops w fuel ops s0) s') :
  List.length (message_queue s') <= message_queue_size w.
Proof.
  apply (preserves_ends_in
           (fun s => List.length (message_queue s) <= message_queue_size w)
           (run_ops w fuel ops) s0 s'); [|rewrite (wolk_init_state _ _ _ Hinit); simpl; lia|exact Hrun].
  apply preserves_run_ops; intros; simpl; try assumption.
  - unfold Queue.put; destruct (Nat.ltb _ _) eqn:Hlt; simpl; [|assumption].
    apply Nat.ltb_lt in Hlt; rewrite length_app; simpl; lia.
  - destruct (message_queue s) as [|m r]; simpl in *; lia.
Qed.


(** X3: with keep-alive disabled no timer is ever created: whatever
    operations run after construction, [keep_alive_service] stays
    [None]. *)
Theorem keep_alive_disabled_no_timer (w : Wolk) (fuel : nat) (ops : list Op)
  (d0 : DeviceState) (s0 s' : State)
  (Hoff : keep_alive_enabled w = false)
  (Hinit : wolk_init w d0 = inr s0)
  (Hrun : ends_in (run_ops w fuel ops s0) s') :
  keep_alive_service s' = None.
Proof.
  apply (preserves_ends_in (fun s => keep_alive_service s = None)
           (run_ops w fuel ops) s0 s');
    [|rewrite (wolk_init_state _ _ _ Hinit); reflexivity|exact Hrun].
  apply preserves_run_ops; intros; simpl; try assumption; congruence.
Qed.

(** X4: with keep-alive enabled, [disconnect] before any [connect] raises
    [AttributeError] (the timer is still [None]); [connect] starts the
    timer and a following [disconnect] stops it without error.  With
    keep-alive disabled [disconnect] never raises. *)
Theorem connect_disconnect_timer (w : Wolk) (d0 : DeviceState) (s0 : State)
  (Hinit : wolk_init w d0 = inr s0) :
  (keep_alive_enabled w = true ->
   disconnect w s0 = Raised AttributeError (log EvDisconnect s0) /\
   exists s1 s2, connect w s0 = Ok tt s1 /\ keep_alive_service s1 = Some true /\
                 disconnect w s1 = Ok tt s2 /\ keep_alive_service s2 = Some false) /\
  (keep_alive_enabled w = false -> forall s, disconnect w s = Ok tt (log EvDisconnect s)).
Proof.
  rewrite (wolk_init_state _ _ _ Hinit).
  split; intros He; unfold disconnect, connect, bind, modify, gets, raise, ret;
    rewrite He; simpl; [|reflexivity].
  split; [reflexivity|]; do 2 eexists; repeat split; reflexivity.
Qed.


(** X6: a configuration command (not an actuation command) with both
    configuration callbacks registered calls the handler once with the
    parsed configuration, then queries the provider on the updated device
    state and makes exactly one transport publish of what the provider
    returns (not of the command), queuing it only if that publish fails;
    with either callback missing nothing happens. *)
Theorem configuration_command_handled_once (w : Wolk) (m : InboundMessage) (s : State)
  (Hact : is_actuation_command (message_deserializer w) m = false)
  (Hconf : is_configuration_command (message_deserializer w) m = true) :
  (forall h p, configuration_handler w = Some h -> configuration_provider w = Some p ->
     let c := parse_configuration_command (message_deserializer w) m in
     let d' := h (device_state s) c in
     let msg := MsgConfiguration (p d') in
     let ok := transport w (publish_calls s) in
     on_inbound_message w m s =
     Ok tt {| message_queue :=
                if ok then message_queue s
                else fst (Queue.put (message_queue_size w) (message_queue s) msg);
              keep_alive_service := keep_alive_service s;
              last_platform_timestamp := last_platform_timestamp s;
              publish_calls := S (publish_calls s);
              device_state := d';
              trace := EvPublish msg ok :: EvConfigurationProvider
                       :: EvConfigurationHandler c :: trace s |}) /\
  (configuration_handler w = None \/ configuration_provider w = None ->
   on_inbound_message w m s = Ok tt s).
Proof.
  split.
  - intros h p Hh Hp; simpl.
    unfold on_inbound_message; rewrite Hact, Hconf, Hh, Hp.
    unfold publish_configuration, call_configuration_provider; rewrite Hh, Hp.
    unfold bind, call_configuration_handler, transport_publish, queue_put, ret; simpl.
    destruct (transport w (publish_calls s)); simpl; [reflexivity|].
    destruct (Queue.put _ _ _); reflexivity.
  - intros [H | H]; unfold on_inbound_message; rewrite Hact, Hconf, H;
      [destruct (configuration_provider w); reflexivity|reflexivity].
Qed.

Lemma run_ops_app (w : Wolk) (fuel : nat) (a b : list Op) (s : State) :
  run_ops w fuel (a ++ b) s = bind (run_ops w fuel a) (fun _ => run_ops w fuel b) s.
Proof.
  revert s; induction a as [|op rest IH]; intros s; simpl; [reflexivity|].
  unfold bind; destruct (run_op w fuel op s) as [[] s1|e s1|]; try reflexivity.
  specialize (IH s1); unfold bind in IH; exact IH.
Qed.

Lemma run_reading_ops (w : Wolk) (fuel : nat) (rs : list SensorReading) (s : State) :
  List.length (message_queue s) + List.length rs <= message_queue_size w ->
  run_ops w fuel (reading_ops rs) s =
  Ok tt (set_queue (message_queue s ++ reading_msgs rs) s).
Proof.
  revert s; induction rs as [|r rest IH]; intros s Hcap; simpl in *.
  - rewrite app_nil_r; destruct s; reflexivity.
  - unfold bind at 1, run_op, add_sensor_reading, bind, queue_put, Queue.put.
    replace (Nat.ltb (List.length (message_queue s)) (message_queue_size w)) with true
      by (symmetry; apply Nat.ltb_lt; lia).
    unfold ret; rewrite IH by (simpl; rewrite length_app; simpl; lia).
    simpl; rewrite <- app_assoc; reflexivity.
Qed.

Lemma publish_drains_in_order (w : Wolk) (fuel : nat) (s : State) :
  (forall k, transport w k = true) -> List.length (message_queue s) < fuel ->
  publish w fuel s =
  Ok tt {| message_queue := [];
           keep_alive_service := keep_alive_service s;
           last_platform_timestamp := last_platform_timestamp s;
           publish_calls := publish_calls s + List.length (message_queue s);
           device_state := device_state s;
           trace := rev (map (fun m => EvPublish m true) (message_queue s))
                    ++ trace s |}.
Proof.
  intros Hok; destruct s as [q kas ts c d tr]; simpl.
  revert fuel c tr; induction q as [|m r IH]; intros fuel c tr Hfuel;
    destruct fuel as [|f]; simpl in Hfuel; try lia; rewrite publish_S; simpl.
  - rewrite Nat.add_0_r; reflexivity.
  - rewrite Hok; unfold set_queue, record_publish; simpl.
    rewrite IH by lia; rewrite <- app_assoc; simpl; repeat f_equal; lia.
Qed.

(** X7: readings added with [add_sensor_reading] while the queue has room
    are all delivered by the next [publish] with a transport that accepts
    every call: after what was queued before, in the order they were
    added, each exactly once, leaving the queue empty. *)
Theorem add_readings_then_publish (w : Wolk) (fuel : nat) (rs : list SensorReading)
  (s : State)
  (Hok : forall k, transport w k = true)
  (Hcap : List.length (message_queue s) + List.length rs <= message_queue_size w)
  (Hfuel : List.length (message_queue s) + List.length rs < fuel) :
  exists s', run_ops w fuel (reading_ops rs ++ [OpPublish]) s = Ok tt s' /\
    message_queue s' = [] /\
    trace s' = rev (map (fun m => EvPublish m true) (message_queue s ++ reading_msgs rs))
               ++ trace s.
Proof.
  rewrite run_ops_app; unfold bind at 1; rewrite run_reading_ops by exact Hcap.
  simpl; unfold bind.
  rewrite (publish_drains_in_order w fuel) by
    (exact Hok || (simpl; rewrite length_app; unfold reading_msgs; rewrite length_map; lia)).
  eexists; split; [reflexivity|split; reflexivity].
Qed.

(** X8: a device without actuator references ([None] or an empty list)
    is always wrapped, whichever callbacks are given or missing. *)
Theorem init_without_actuators_succeeds (w : Wolk) (d0 : DeviceState)
  (Hrefs : actuator_references (device w) = None \/
           actuator_references (device w) = Some []) :
  wolk_init w d0 = inr (initial_state d0).
Proof. unfold wolk_init; destruct Hrefs as [H | H]; rewrite H; reflexivity. Qed.

(** ** Witnesses of the further properties *)

Lemma queue_within_capacity_witness :
  ends_in (run_ops cap2_all_fail 1 alarms_and_probe (initial_state []))
    after_alarms_and_probe /\
  message_queue after_alarms_and_probe =
    [MsgAlarm "A1" true None; MsgAlarm "A2" false None] /\
  List.length (message_queue after_alarms_and_probe) <= message_queue_size cap2_all_fail.
Proof.
  assert (Hi : wolk_init cap2_all_fail [] = inr (initial_state [])) by reflexivity.
  assert (Hr : ends_in (run_ops cap2_all_fail 1 alarms_and_probe (initial_state []))
                 after_alarms_and_probe) by (left; vm_compute; reflexivity).
  split; [exact Hr|split; [vm_compute; reflexivity|]].
  exact (queue_within_capacity cap2_all_fail 1 alarms_and_probe [] _ _ Hi Hr).
Defined.


Lemma keep_alive_disabled_no_timer_witness :
  ends_in (run_ops keep_alive_disabled 1 timer_ops (initial_state [])) after_timer_ops /\
  keep_alive_service after_timer_ops = None.
Proof.
  assert (Ho : keep_alive_enabled keep_alive_disabled = false) by reflexivity.
  assert (Hi : wolk_init keep_alive_disabled [] = inr (initial_state [])) by reflexivity.
  assert (Hr : ends_in (run_ops keep_alive_disabled 1 timer_ops (initial_state []))
                 after_timer_ops) by (left; vm_compute; reflexivity).
  split; [exact Hr|].
  exact (keep_alive_disabled_no_timer keep_alive_disabled 1 timer_ops [] _ _ Ho Hi Hr).
Defined.

Lemma connect_disconnect_timer_witness :
  disconnect all_calls_succeed (initial_state []) =
    Raised AttributeError (log EvDisconnect (initial_state [])).
Proof.
  assert (Hi : wolk_init all_calls_succeed [] = inr (initial_state [])) by reflexivity.
  assert (He : keep_alive_enabled all_calls_succeed = true) by reflexivity.
  exact (proj1 (proj1 (connect_disconnect_timer all_calls_succeed [] _ Hi) He)).
Defined.

Lemma configuration_command_handled_once_witness :
  on_inbound_message all_calls_succeed configure_fast (initial_state []) =
    Ok tt configured_fast.
Proof.
  assert (Ha : is_actuation_command (message_deserializer all_calls_succeed)
                 configure_fast = false) by reflexivity.
  assert (Hc : is_configuration_command (message_deserializer all_calls_succeed)
                 configure_fast = true) by reflexivity.
  exact (proj1 (configuration_command_handled_once all_calls_succeed configure_fast
                  (initial_state []) Ha Hc) ex_configuration_handler
                  ex_configuration_provider eq_refl eq_refl).
Defined.

Lemma add_readings_then_publish_witness :
  exists s', run_ops all_calls_succeed 3 (reading_ops two_readings ++ [OpPublish])
               (initial_state []) = Ok tt s' /\
    message_queue s' = [] /\
    trace s' = [EvPublish (MsgSensorReading "H1" (VInt 40) None) true;
                EvPublish (MsgSensorReading "T1" (VInt 23) (Some 1000%Z)) true].
Proof.
  assert (Hok : forall k, transport all_calls_succeed k = true) by reflexivity.
  assert (Hcap : List.length (message_queue (initial_state [])) + List.length two_readings
                 <= message_queue_size all_calls_succeed) by (simpl; lia).
  assert (Hf : List.length (message_queue (initial_state [])) + List.length two_readings
               < 3) by (simpl; lia).
  destruct (add_readings_then_publish all_calls_succeed 3 two_readings
              (initial_state []) Hok Hcap Hf) as [s' [Hr [Hq Ht]]].
  exists s'; split; [exact Hr|split; [exact Hq|]].
  rewrite Ht; reflexivity.
Defined.

Lemma init_without_actuators_succeeds_witness :
  wolk_init ex_wolk_without_provider [] = inr (initial_state []).
Proof.
  assert (H : actuator_references (device ex_wolk_without_provider) = None \/
              actuator_references (device ex_wolk_without_provider) = Some [])
    by (left; reflexivity).
  exact (init_without_actuators_succeeds ex_wolk_without_provider [] H).
Defined.
